(** * SGR attribute matrix printer: crates/icy_engine/term/a.c

    A shallow embedding of the C program [a.c] and the properties of its
    standard output.  The program has one function, [main], which makes a
    fixed sequence of [printf] calls from nine textually repeated nested
    loops.

    - C [int] variables are [Z] values, wrapped to 32 bits after each
      arithmetic operation.
    - The locals [i], [j], [n] are a record; they are not initialised by the
      source, so every result is stated for an arbitrary initial record.
    - Output is a log of [printf] calls (format and actual arguments), in
      call order; [stdout_bytes] renders the log to the bytes written.
    - Loops take fuel; 12 units are enough for every loop of the program,
      and 11 are not. *)

From Stdlib Require Import ZArith List String Ascii Lia Bool Sorted FinFun.
From Stdlib Require Import DecimalString.
Import ListNotations.

Local Open Scope string_scope.
Local Open Scope Z_scope.

(** ** C integers *)

Module CInt.

Definition int_min : Z := - 2 ^ 31.
Definition int_max : Z := 2 ^ 31 - 1.

(** Two's complement wrap-around of a mathematical integer to [int]. *)
Definition wrap (z : Z) : Z := (z - int_min) mod 2 ^ 32 + int_min.

Definition add (a b : Z) : Z := wrap (a + b).
Definition mul (a b : Z) : Z := wrap (a * b).

End CInt.

(** ** C string literals *)

Module CString.

Definition LF : ascii := "010"%char.
Definition ESC : ascii := "027"%char.

Definition octal_digit (c : ascii) : option nat :=
  let k := nat_of_ascii c in
  if (andb (48 <=? k) (k <=? 55))%nat then Some (k - 48)%nat else None.

(** The escapes of a C string literal that occur in [a.c]: a backslash
    followed by [n], and a backslash followed by three octal digits.
    Any other character stands for itself. *)
Fixpoint unescape (s : string) : string :=
  match s with
  | EmptyString => EmptyString
  | String c r =>
      if Ascii.eqb c "\"%char then
        match r with
        | String c1 r1 =>
            if Ascii.eqb c1 "n"%char then String LF (unescape r1)
            else
              match r1 with
              | String c2 (String c3 r3) =>
                  match octal_digit c1, octal_digit c2, octal_digit c3 with
                  | Some a, Some b, Some d =>
                      String (ascii_of_nat (64 * a + 8 * b + d)) (unescape r3)
                  | _, _, _ => String c (String c1 (unescape r1))
                  end
              | _ => String c (String c1 (unescape r1))
              end
        | EmptyString => String c EmptyString
        end
      else String c (unescape r)
  end.

End CString.

Notation "'C_str' s" := (CString.unescape s) (at level 9, s at level 0, only parsing).

(** ** printf *)

Module Printf.

(** Decimal text of an [int], as the conversion [d] writes it: a minus
    sign for negative values, no leading zeros, ["0"] for zero. *)
Definition dec (z : Z) : string := NilZero.string_of_int (Z.to_int z).

Fixpoint spaces (k : nat) : string :=
  match k with
  | O => EmptyString
  | S k' => String " "%char (spaces k')
  end.

(** A field of minimum width [w], right-justified, padded with spaces. *)
Definition rjust (w : nat) (s : string) : string :=
  spaces (w - String.length s) ++ s.

Definition digit_val (c : ascii) : option nat :=
  let k := nat_of_ascii c in
  if (andb (48 <=? k) (k <=? 57))%nat then Some (k - 48)%nat else None.

(** Scanner state: copying ordinary characters, or inside a conversion
    specification whose field width read so far is [w]. *)
Inductive mode : Type :=
| Copy
| Conv (w : nat).

(** [printf] belongs to the C library, not to [a.c]; this is the part of
    its format language (ISO C, 7.21.6.1) that the program uses: ordinary
    characters are copied, [%d] and [%<width>d] convert the next argument,
    and any other character after [%] is copied.  A conversion with no
    argument left writes nothing. *)
Fixpoint format (m : mode) (fmt : string) (args : list Z) : string :=
  match fmt with
  | EmptyString => EmptyString
  | String c r =>
      match m with
      | Copy =>
          if Ascii.eqb c "%"%char then format (Conv 0) r args
          else String c (format Copy r args)
      | Conv w =>
          match digit_val c with
          | Some d => format (Conv (10 * w + d)) r args
          | None =>
              if Ascii.eqb c "d"%char then
                match args with
                | a :: args' => rjust w (dec a) ++ format Copy r args'
                | [] => format Copy r []
                end
              else String c (format Copy r args)
          end
      end
  end.

End Printf.

(** ** Program state and output *)

(** One call of [printf]: the format string and the values of the
    arguments after it. *)
Record call : Type := Printf_call { call_fmt : string; call_args : list Z }.

Definition render (c : call) : string :=
  Printf.format Printf.Copy (call_fmt c) (call_args c).

(** The bytes a log of calls writes to standard output. *)
Definition stdout_bytes (log : list call) : string :=
  String.concat "" (map render log).

(** The locals of [main]. *)
Record vars : Type := Vars { var_i : Z; var_j : Z; var_n : Z }.

Definition set_i (z : Z) (v : vars) : vars := Vars z (var_j v) (var_n v).
Definition set_j (z : Z) (v : vars) : vars := Vars (var_i v) z (var_n v).
Definition set_n (z : Z) (v : vars) : vars := Vars (var_i v) (var_j v) z.

(** How a statement ends: it falls through, or it leaves the innermost
    loop. *)
Inductive flow : Type :=
| Next
| Break.

(** A computation runs on the locals and either runs out of fuel or gives
    a result, the new locals and the calls it made. *)
Definition M (A : Type) : Type := vars -> option (A * vars * list call).

Definition ret {A : Type} (a : A) : M A := fun v => Some (a, v, []).

Definition bind {A B : Type} (m : M A) (k : A -> M B) : M B :=
  fun v =>
    match m v with
    | None => None
    | Some (a, v1, l1) =>
        match k a v1 with
        | None => None
        | Some (b, v2, l2) => Some (b, v2, (l1 ++ l2)%list)
        end
    end.

Definition stmt : Type := M flow.

(** [a; b]: [b] runs unless [a] left the loop. *)
Definition seq (a b : stmt) : stmt :=
  bind a (fun f => match f with Next => b | Break => ret Break end).

Definition assign (upd : Z -> vars -> vars) (e : vars -> Z) : stmt :=
  fun v => Some (Next, upd (e v) v, []).

Definition if_then (c : vars -> bool) (a : stmt) : stmt :=
  fun v => if c v then a v else ret Next v.

Definition break : stmt := ret Break.

Definition printf (fmt : string) (args : list (vars -> Z)) : stmt :=
  fun v => Some (Next, v, [Printf_call fmt (map (fun e => e v) args)]).

(** [while (cond) { body; step }]; a [break] in [body] skips [step] and
    ends the loop. *)
Fixpoint while_loop (fuel : nat) (cond : vars -> bool) (step body : stmt) : stmt :=
  match fuel with
  | O => fun _ => None
  | S fuel' =>
      fun v =>
        if cond v then
          bind body
            (fun f =>
               match f with
               | Break => ret Next
               | Next => seq step (while_loop fuel' cond step body)
               end) v
        else ret Next v
  end.

(** [for (init; cond; step) body]. *)
Definition for_loop (fuel : nat) (init : stmt) (cond : vars -> bool)
    (step body : stmt) : stmt :=
  seq init (while_loop fuel cond step body).

Declare Scope c_scope.
Delimit Scope c_scope with c.
Notation "a ;; b" := (seq a b) (at level 61, right associativity) : c_scope.

(** ** The program *)

(** The nested loop that follows each label.  The source writes it out nine
    times; the copies differ in the format string of the cell only. *)
Definition matrix_loop (fuel : nat) (fmt : string) : stmt :=
  for_loop fuel (assign set_i (fun _ => 0)) (fun v => var_i v <? 11)
    (assign set_i (fun v => CInt.add (var_i v) 1))
    (for_loop fuel (assign set_j (fun _ => 0)) (fun v => var_j v <? 10)
       (assign set_j (fun v => CInt.add (var_j v) 1))
       (assign set_n (fun v => CInt.add (CInt.mul 10 (var_i v)) (var_j v)) ;;
        if_then (fun v => var_n v >? 108) break ;;
        printf fmt [var_n; var_n]) ;;
     printf C_str"\n" [])%c.

Definition main_body (fuel : nat) : stmt :=
  (printf C_str"Plain:\n" [] ;;
   matrix_loop fuel C_str"\033[%dm %3d\033[m" ;;
   printf C_str"Bold:\n" [] ;;
   matrix_loop fuel C_str"\033[1;%dm %3d\033[m" ;;
   printf C_str"Bold:\n" [] ;;
   matrix_loop fuel C_str"\033[2;%dm %3d\033[m" ;;
   printf C_str"Italic:\n" [] ;;
   matrix_loop fuel C_str"\033[3;%dm %3d\033[m" ;;
   printf C_str"Blink:\n" [] ;;
   matrix_loop fuel C_str"\033[5;%dm %3d\033[m" ;;
   printf C_str"Underline:\n" [] ;;
   matrix_loop fuel C_str"\033[4;%dm %3d\033[m" ;;
   printf C_str"Crossed out :\n" [] ;;
   matrix_loop fuel C_str"\033[9;%dm %3d\033[m" ;;
   printf C_str"Double underlined :\n" [] ;;
   matrix_loop fuel C_str"\033[21;%dm %3d\033[m" ;;
   printf C_str"Conceal/hide :\n" [] ;;
   matrix_loop fuel C_str"\033[8;%dm %3d\033[m")%c.

(** [int main(void)]: the body, then [return 0]. *)
Definition main (fuel : nat) : M Z :=
  bind (main_body fuel) (fun _ => ret 0).

(** The exit status and the log of a finished run. *)
Definition exit_status (r : Z * vars * list call) : Z := fst (fst r).
Definition log_of {A : Type} (r : A * vars * list call) : list call := snd r.

(** [m2] gives every result that [m1] gives. *)
Definition refines {A : Type} (m1 m2 : M A) : Prop :=
  forall v r, m1 v = Some r -> m2 v = Some r.

(** ** Reading the log *)

Definition no_args (c : call) : bool :=
  match call_args c with
  | [] => true
  | _ :: _ => false
  end.

(** A line break: the call [printf("\n")]. *)
Definition is_newline (c : call) : bool :=
  no_args c && String.eqb (call_fmt c) (String CString.LF EmptyString).

(** A cell: a call that formats a value. *)
Definition is_cell (c : call) : bool := negb (no_args c).

(** A label: a call without arguments that is not a bare line break. *)
Definition is_label (c : call) : bool := no_args c && negb (is_newline c).

(** The values a call formats, and the first of them. *)
Definition cell_value (c : call) : option Z := hd_error (call_args c).

Definition cells_of (log : list call) : list call := filter is_cell log.

(** The values [n] emitted by a log, in emission order. *)
Definition emitted_values (log : list call) : list Z :=
  flat_map (fun c => match cell_value c with Some n => [n] | None => [] end) log.

(** Cuts a log at its labels: the calls before the first label, and then
    each label with the calls that follow it up to the next label. *)
Fixpoint split_groups (log : list call) : list call * list (call * list call) :=
  match log with
  | [] => ([], [])
  | c :: l =>
      let (pre, gs) := split_groups l in
      if is_label c then ([], (c, pre) :: gs) else (c :: pre, gs)
  end.

Definition preamble (log : list call) : list call := fst (split_groups log).
Definition groups_of (log : list call) : list (call * list call) :=
  snd (split_groups log).

Definition group_label (g : call * list call) : call := fst g.
Definition group_body (g : call * list call) : list call := snd g.

(** Cuts the calls of a group at its line breaks: the rows, each one the
    calls before one line break (the line break itself left out), and the
    calls after the last line break.  [cur] holds the current row,
    reversed. *)
Fixpoint split_rows (cur : list call) (body : list call)
    : list (list call) * list call :=
  match body with
  | [] => ([], rev cur)
  | c :: l =>
      if is_newline c then
        let (rs, rest) := split_rows [] l in (rev cur :: rs, rest)
      else split_rows (c :: cur) l
  end.

Definition rows_of (body : list call) : list (list call) :=
  fst (split_rows [] body).
Definition unterminated (body : list call) : list call :=
  snd (split_rows [] body).

Definition newline_call : call := Printf_call (String CString.LF EmptyString) [].

(** ** Reading the bytes *)

Module Bytes.

Definition count (c : ascii) (s : string) : nat :=
  List.length (filter (Ascii.eqb c) (list_ascii_of_string s)).

Definition last_byte (s : string) : option ascii :=
  last (map Some (list_ascii_of_string s)) None.

(** The lines of a text: each run of bytes that ends at a line feed,
    without the line feed, and the bytes after the last line feed.
    [cur] holds the current line, reversed. *)
Fixpoint split_lines (cur : list ascii) (s : string) : list string * string :=
  match s with
  | EmptyString => ([], string_of_list_ascii (rev cur))
  | String c r =>
      if Ascii.eqb c CString.LF then
        let (ls, rest) := split_lines [] r in
        (string_of_list_ascii (rev cur) :: ls, rest)
      else split_lines (c :: cur) r
  end.

Definition lines (s : string) : list string := fst (split_lines [] s).
Definition after_last_line (s : string) : string := snd (split_lines [] s).

Definition starts_with_ESC (s : string) : bool :=
  match s with
  | String c _ => Ascii.eqb c CString.ESC
  | EmptyString => false
  end.

End Bytes.

(** ** The output as the specification words it *)

Module Spec.

(** The integers [0 .. k-1]. *)
Definition upto (k : nat) : list Z := map Z.of_nat (List.seq 0 k).

Definition digit (d : Z) : ascii := ascii_of_nat (48 + Z.to_nat d).

(** Decimal digits of [0 <= n < 1000], most significant first. *)
Definition decimal (n : Z) : string :=
  if n <? 10 then String (digit n) EmptyString
  else if n <? 100 then String (digit (n / 10)) (String (digit (n mod 10)) EmptyString)
  else String (digit (n / 100))
         (String (digit (n / 10 mod 10)) (String (digit (n mod 10)) EmptyString)).

(** [n] right-justified in a field of three characters. *)
Definition field3 (n : Z) : string :=
  if n <? 10 then "  " ++ decimal n
  else if n <? 100 then " " ++ decimal n
  else decimal n.

(** [ESC [ prefix ; n m space field ESC [ m]; with no prefix, the prefix
    and its semicolon are left out. *)
Definition cell (prefix : option Z) (n : Z) : string :=
  String CString.ESC "["
  ++ match prefix with
     | Some p => decimal p ++ ";"
     | None => ""
     end
  ++ decimal n ++ "m" ++ " " ++ field3 n
  ++ String CString.ESC "[m".

(** The prefix codes of the groups after Plain, in group order. *)
Definition prefixes : list Z := [1; 2; 3; 5; 4; 9; 21; 8].

(** The label texts, in group order. *)
Definition labels : list string :=
  ["Plain:"; "Bold:"; "Bold:"; "Italic:"; "Blink:"; "Underline:";
   "Crossed out :"; "Double underlined :"; "Conceal/hide :"].

Definition line (text : string) : string := text ++ String CString.LF EmptyString.

End Spec.

(** ** The log in closed form *)

(** The values of row [i]: [10 * i + j] for the columns [j] in [0 .. 9]
    that do not take it past 108. *)
Definition row_values (i : Z) : list Z :=
  filter (fun n => n <=? 108) (map (fun j => 10 * i + j) (Spec.upto 10)).

(** The calls of one nested loop: for each row [i] in [0 .. 10] its cells,
    then one line break. *)
Definition matrix_calls (fmt : string) : list call :=
  flat_map
    (fun i => map (fun n => Printf_call fmt [n; n]) (row_values i) ++ [newline_call])%list
    (Spec.upto 11).

(** Label and cell format of the nine groups, in source order. *)
Definition source_groups : list (string * string) :=
  [ (C_str"Plain:\n", C_str"\033[%dm %3d\033[m");
    (C_str"Bold:\n", C_str"\033[1;%dm %3d\033[m");
    (C_str"Bold:\n", C_str"\033[2;%dm %3d\033[m");
    (C_str"Italic:\n", C_str"\033[3;%dm %3d\033[m");
    (C_str"Blink:\n", C_str"\033[5;%dm %3d\033[m");
    (C_str"Underline:\n", C_str"\033[4;%dm %3d\033[m");
    (C_str"Crossed out :\n", C_str"\033[9;%dm %3d\033[m");
    (C_str"Double underlined :\n", C_str"\033[21;%dm %3d\033[m");
    (C_str"Conceal/hide :\n", C_str"\033[8;%dm %3d\033[m") ].

Definition program_calls : list call :=
  flat_map (fun g => Printf_call (fst g) [] :: matrix_calls (snd g)) source_groups.

(** The locals when [main] returns. *)
Definition final_vars : vars := Vars 11 9 109.

(** ** The program under the undefined-behaviour rules of C

    The same statements, read strictly: a local holds no value until it is
    assigned, reading it before is undefined; an [int] operation whose
    result does not fit is undefined; a [printf] whose format has more
    conversions than there are arguments is undefined. *)

(** The number of arguments a format converts; the scanner is that of
    [Printf.format]. *)
Fixpoint format_conversions (m : Printf.mode) (fmt : string) : nat :=
  match fmt with
  | EmptyString => O
  | String c r =>
      match m with
      | Printf.Copy =>
          if Ascii.eqb c "%"%char then format_conversions (Printf.Conv 0) r
          else format_conversions Printf.Copy r
      | Printf.Conv w =>
          match Printf.digit_val c with
          | Some d => format_conversions (Printf.Conv (10 * w + d)) r
          | None =>
              if Ascii.eqb c "d"%char then S (format_conversions Printf.Copy r)
              else format_conversions Printf.Copy r
          end
      end
  end.

Module Strict.

(** The locals; [None] is the indeterminate value of a local that was not
    assigned yet. *)
Record locals : Type :=
  Locals { loc_i : option Z; loc_j : option Z; loc_n : option Z }.

Definition uninitialised : locals := Locals None None None.

Definition put_i (z : Z) (v : locals) : locals := Locals (Some z) (loc_j v) (loc_n v).
Definition put_j (z : Z) (v : locals) : locals := Locals (loc_i v) (Some z) (loc_n v).
Definition put_n (z : Z) (v : locals) : locals := Locals (loc_i v) (loc_j v) (Some z).

(** An expression has a value, or its evaluation is undefined. *)
Definition expr : Type := locals -> option Z.

Definition const (z : Z) : expr := fun _ => Some z.

(** The result of an [int] operation, if it fits. *)
Definition fits (z : Z) : option Z :=
  if (CInt.int_min <=? z) && (z <=? CInt.int_max) then Some z else None.

Definition binop (f : Z -> Z -> option Z) (a b : expr) : expr :=
  fun v =>
    match a v, b v with
    | Some x, Some y => f x y
    | _, _ => None
    end.

Definition add : expr -> expr -> expr := binop (fun x y => fits (x + y)).
Definition mul : expr -> expr -> expr := binop (fun x y => fits (x * y)).

Definition test : Type := locals -> option bool.

Definition compare (f : Z -> Z -> bool) (a b : expr) : test :=
  fun v =>
    match a v, b v with
    | Some x, Some y => Some (f x y)
    | _, _ => None
    end.

Definition lt : expr -> expr -> test := compare Z.ltb.
Definition gt : expr -> expr -> test := compare Z.gtb.

Fixpoint eval_args (args : list expr) (v : locals) : option (list Z) :=
  match args with
  | [] => Some []
  | e :: rest =>
      match e v, eval_args rest v with
      | Some z, Some zs => Some (z :: zs)
      | _, _ => None
      end
  end.

Inductive outcome (A : Type) : Type :=
| Done (a : A) (v : locals) (log : list call)
| Out_of_fuel
| Undefined.

Arguments Done {A} a v log.
Arguments Out_of_fuel {A}.
Arguments Undefined {A}.

Definition S_M (A : Type) : Type := locals -> outcome A.

Definition ret {A : Type} (a : A) : S_M A := fun v => Done a v [].

Definition bind {A B : Type} (m : S_M A) (k : A -> S_M B) : S_M B :=
  fun v =>
    match m v with
    | Done a v1 l1 =>
        match k a v1 with
        | Done b v2 l2 => Done b v2 (l1 ++ l2)%list
        | Out_of_fuel => Out_of_fuel
        | Undefined => Undefined
        end
    | Out_of_fuel => Out_of_fuel
    | Undefined => Undefined
    end.

Definition stmt : Type := S_M flow.

Definition seq (a b : stmt) : stmt :=
  bind a (fun f => match f with Next => b | Break => ret Break end).

Definition assign (upd : Z -> locals -> locals) (e : expr) : stmt :=
  fun v =>
    match e v with
    | Some z => Done Next (upd z v) []
    | None => Undefined
    end.

Definition if_then (c : test) (a : stmt) : stmt :=
  fun v =>
    match c v with
    | Some true => a v
    | Some false => Done Next v []
    | None => Undefined
    end.

Definition break : stmt := ret Break.

Definition printf (fmt : string) (args : list expr) : stmt :=
  fun v =>
    match eval_args args v with
    | Some zs =>
        if (format_conversions Printf.Copy fmt <=? List.length zs)%nat
        then Done Next v [Printf_call fmt zs]
        else Undefined
    | None => Undefined
    end.

Fixpoint while_loop (fuel : nat) (cond : test) (step body : stmt) : stmt :=
  match fuel with
  | O => fun _ => Out_of_fuel
  | S fuel' =>
      fun v =>
        match cond v with
        | Some true =>
            bind body
              (fun f =>
                 match f with
                 | Break => ret Next
                 | Next => seq step (while_loop fuel' cond step body)
                 end) v
        | Some false => Done Next v []
        | None => Undefined
        end
  end.

Definition for_loop (fuel : nat) (init : stmt) (cond : test) (step body : stmt) : stmt :=
  seq init (while_loop fuel cond step body).

Declare Scope strict_scope.
Delimit Scope strict_scope with strict.
Notation "a ;; b" := (seq a b) (at level 61, right associativity) : strict_scope.

Definition matrix_loop (fuel : nat) (fmt : string) : stmt :=
  for_loop fuel (assign put_i (const 0)) (lt loc_i (const 11))
    (assign put_i (add loc_i (const 1)))
    (for_loop fuel (assign put_j (const 0)) (lt loc_j (const 10))
       (assign put_j (add loc_j (const 1)))
       (assign put_n (add (mul (const 10) loc_i) loc_j) ;;
        if_then (gt loc_n (const 108)) break ;;
        printf fmt [loc_n; loc_n]) ;;
     printf C_str"\n" [])%strict.

Definition main_body (fuel : nat) : stmt :=
  (printf C_str"Plain:\n" [] ;;
   matrix_loop fuel C_str"\033[%dm %3d\033[m" ;;
   printf C_str"Bold:\n" [] ;;
   matrix_loop fuel C_str"\033[1;%dm %3d\033[m" ;;
   printf C_str"Bold:\n" [] ;;
   matrix_loop fuel C_str"\033[2;%dm %3d\033[m" ;;
   printf C_str"Italic:\n" [] ;;
   matrix_loop fuel C_str"\033[3;%dm %3d\033[m" ;;
   printf C_str"Blink:\n" [] ;;
   matrix_loop fuel C_str"\033[5;%dm %3d\033[m" ;;
   printf C_str"Underline:\n" [] ;;
   matrix_loop fuel C_str"\033[4;%dm %3d\033[m" ;;
   printf C_str"Crossed out :\n" [] ;;
   matrix_loop fuel C_str"\033[9;%dm %3d\033[m" ;;
   printf C_str"Double underlined :\n" [] ;;
   matrix_loop fuel C_str"\033[21;%dm %3d\033[m" ;;
   printf C_str"Conceal/hide :\n" [] ;;
   matrix_loop fuel C_str"\033[8;%dm %3d\033[m")%strict.

Definition main (fuel : nat) : S_M Z :=
  bind (main_body fuel) (fun _ => ret 0).

Definition final_locals : locals := Locals (Some 11) (Some 9) (Some 109).

(** [m2] finishes as [m1] does, whenever [m1] finishes. *)
Definition refines {A : Type} (m1 m2 : S_M A) : Prop :=
  forall v a v' l, m1 v = Done a v' l -> m2 v = Done a v' l.

End Strict.

(** ** What a terminal makes of the bytes

    A scanner for the escape sequences the program writes: [ESC [ params m]
    is one SGR sequence, a line feed is a line break, every other byte is a
    glyph.  An escape sequence that is cut short or holds another byte is
    not recognised: its bytes come out as glyphs. *)

Module Terminal.

Inductive token : Type :=
| Glyph (c : ascii)
| Sgr (params : string)
| Line_break.

(** Where the scanner is: in plain text, after ESC, or after [ESC [] with
    the parameter bytes read so far, reversed. *)
Inductive scan_mode : Type :=
| Ground
| Escape
| Csi (acc : list ascii).

Definition is_param (c : ascii) : bool :=
  match Printf.digit_val c with
  | Some _ => true
  | None => Ascii.eqb c ";"%char
  end.

Definition unrecognised (acc : list ascii) : list token :=
  Glyph CString.ESC :: Glyph "["%char :: map Glyph (rev acc).

Fixpoint scan (m : scan_mode) (s : string) : list token :=
  match s with
  | EmptyString =>
      match m with
      | Ground => []
      | Escape => [Glyph CString.ESC]
      | Csi acc => unrecognised acc
      end
  | String c r =>
      let ground :=
        if Ascii.eqb c CString.ESC then scan Escape r
        else (if Ascii.eqb c CString.LF then Line_break else Glyph c) :: scan Ground r in
      match m with
      | Ground => ground
      | Escape =>
          if Ascii.eqb c "["%char then scan (Csi []) r
          else Glyph CString.ESC :: ground
      | Csi acc =>
          if Ascii.eqb c "m"%char then
            Sgr (string_of_list_ascii (rev acc)) :: scan Ground r
          else if is_param c then scan (Csi (c :: acc)) r
          else (unrecognised acc ++ ground)%list
      end
  end.

Definition tokens (s : string) : list token := scan Ground s.

Definition is_sgr (t : token) : bool :=
  match t with
  | Sgr _ => true
  | _ => false
  end.

Definition is_escape_glyph (t : token) : bool :=
  match t with
  | Glyph c => Ascii.eqb c CString.ESC
  | _ => false
  end.

(** [ESC [ m], the sequence without parameters, resets every attribute;
    any other sequence may set some.  [pending] says that a sequence with
    parameters was written and no reset has followed it yet. *)
Definition after_token (pending : bool) (t : token) : bool :=
  match t with
  | Sgr p => negb (String.eqb p "")
  | _ => pending
  end.

Definition is_digit (c : ascii) : bool :=
  match Printf.digit_val c with
  | Some _ => true
  | None => false
  end.

(** Sequences with parameters and resets alternate, starting with one with
    parameters; every line break, and the end of the text, comes with
    nothing pending; every digit comes with a sequence pending. *)
Fixpoint disciplined (pending : bool) (ts : list token) : bool :=
  match ts with
  | [] => negb pending
  | t :: r =>
      match t with
      | Line_break => negb pending
      | Glyph c => implb (is_digit c) pending
      | Sgr p => Bool.eqb pending (String.eqb p "")
      end
      && disciplined (after_token pending t) r
  end.

(** The glyphs of each line, the escape sequences left out; the glyphs
    after the last line break are dropped. [cur] is the current line,
    reversed. *)
Fixpoint shown_lines (cur : list ascii) (ts : list token) : list string :=
  match ts with
  | [] => []
  | Glyph c :: r => shown_lines (c :: cur) r
  | Sgr _ :: r => shown_lines cur r
  | Line_break :: r => string_of_list_ascii (rev cur) :: shown_lines [] r
  end.

End Terminal.

(** ** Bytes the program writes *)

(** Printable ASCII, or one of the two control bytes ESC and LF. *)
Definition plain_byte (c : ascii) : bool :=
  let k := nat_of_ascii c in
  (32 <=? k)%nat && (k <=? 126)%nat
  || Ascii.eqb c CString.ESC || Ascii.eqb c CString.LF.

(** * Properties *)

(** Splits a conjunction into its parts, without touching the parts. *)
Ltac conjs := repeat match goal with |- _ /\ _ => split end.

(** Settles a closed goal by evaluation. *)
Ltac by_evaluation := vm_compute; reflexivity.

(** ** Fuel *)

Lemma refines_refl {A : Type} (m : M A) : refines m m.
Proof. intros v r H; exact H. Qed.

Lemma bind_refines {A B : Type} (m1 m2 : M A) (k1 k2 : A -> M B) :
  refines m1 m2 -> (forall a, refines (k1 a) (k2 a)) ->
  refines (bind m1 k1) (bind m2 k2).
Proof.
  intros Hm Hk v r. unfold bind.
  destruct (m1 v) as [[[a v1] l1]|] eqn:E1; [|discriminate].
  rewrite (Hm _ _ E1).
  destruct (k1 a v1) as [[[b v2] l2]|] eqn:E2; [|discriminate].
  rewrite (Hk _ _ _ E2). trivial.
Qed.

Lemma seq_refines (a1 a2 b1 b2 : stmt) :
  refines a1 a2 -> refines b1 b2 -> refines (seq a1 b1) (seq a2 b2).
Proof.
  intros Ha Hb. apply bind_refines; [exact Ha|].
  intros [|]; [exact Hb | apply refines_refl].
Qed.

Lemma while_loop_refines (cond : vars -> bool) (step b1 b2 : stmt) :
  refines b1 b2 ->
  forall f1 f2, (f1 <= f2)%nat ->
  refines (while_loop f1 cond step b1) (while_loop f2 cond step b2).
Proof.
  intros Hb. induction f1 as [|f1 IH]; intros f2 Hle v r; [discriminate|].
  destruct f2 as [|f2]; [lia|]. simpl.
  destruct (cond v); [|trivial].
  apply bind_refines; [exact Hb|].
  intros [|]; [|apply refines_refl].
  apply seq_refines; [apply refines_refl | apply IH; lia].
Qed.

Lemma for_loop_refines (init : stmt) (cond : vars -> bool) (step b1 b2 : stmt)
    (f1 f2 : nat) :
  (f1 <= f2)%nat -> refines b1 b2 ->
  refines (for_loop f1 init cond step b1) (for_loop f2 init cond step b2).
Proof.
  intros Hle Hb. apply seq_refines; [apply refines_refl|].
  apply while_loop_refines; assumption.
Qed.

Lemma matrix_loop_refines (fmt : string) (f1 f2 : nat) :
  (f1 <= f2)%nat -> refines (matrix_loop f1 fmt) (matrix_loop f2 fmt).
Proof.
  intros Hle. unfold matrix_loop.
  apply for_loop_refines; [exact Hle|].
  apply seq_refines; [|apply refines_refl].
  apply for_loop_refines; [exact Hle | apply refines_refl].
Qed.

Lemma main_refines (f1 f2 : nat) :
  (f1 <= f2)%nat -> refines (main f1) (main f2).
Proof.
  intros Hle. unfold main, main_body.
  apply bind_refines; [|intros; apply refines_refl].
  do 8 (apply seq_refines; [apply refines_refl|];
        apply seq_refines; [apply matrix_loop_refines; exact Hle|]).
  apply seq_refines; [apply refines_refl|].
  apply matrix_loop_refines; exact Hle.
Qed.

(** ** The run in closed form *)

(** One nested loop, run with 12 units of fuel from any locals and with
    any cell format, makes exactly the calls of [matrix_calls]. *)
Lemma matrix_loop_12 (fmt : string) (v : vars) :
  matrix_loop 12 fmt v = Some (Next, final_vars, matrix_calls fmt).
Proof. vm_compute. reflexivity. Qed.

Lemma matrix_loop_run (fuel : nat) (fmt : string) (v : vars) :
  (12 <= fuel)%nat ->
  matrix_loop fuel fmt v = Some (Next, final_vars, matrix_calls fmt).
Proof.
  intros Hle. apply (matrix_loop_refines fmt 12 fuel Hle). apply matrix_loop_12.
Qed.

(** Eleven units are not enough: the twelfth is used by the test [i < 11]
    that ends the outer loop. *)
Lemma matrix_loop_11 (fmt : string) (v : vars) :
  matrix_loop 11 fmt v = None.
Proof. vm_compute. reflexivity. Qed.

Lemma main_12 (v : vars) :
  main 12 v = Some (0, final_vars, program_calls).
Proof. vm_compute. reflexivity. Qed.

Lemma main_run (fuel : nat) (v : vars) :
  (12 <= fuel)%nat -> main fuel v = Some (0, final_vars, program_calls).
Proof.
  intros Hle. apply (main_refines 12 fuel Hle). apply main_12.
Qed.

(** Whatever the fuel and the initial locals, a run that finishes gives
    the same result. *)
Lemma main_run_inv (fuel : nat) (v : vars) (r : Z * vars * list call) :
  main fuel v = Some r -> r = (0, final_vars, program_calls).
Proof.
  intros H.
  assert (H1 : main (Nat.max fuel 12) v = Some r)
    by (apply (main_refines fuel); [lia | exact H]).
  rewrite main_run in H1 by lia. congruence.
Qed.

(** ** Arithmetic stays in range *)

Lemma wrap_in_range (z : Z) :
  CInt.int_min <= z <= CInt.int_max -> CInt.wrap z = z.
Proof.
  unfold CInt.wrap, CInt.int_min, CInt.int_max. intros H.
  rewrite Z.mod_small; lia.
Qed.

(** The cell value of row [i], column [j] is [10 * i + j], with no
    wrap-around, for every [i] and [j] the loops reach. *)
Lemma cell_value_exact (i j : Z) :
  0 <= i <= 11 -> 0 <= j <= 10 ->
  CInt.add (CInt.mul 10 i) j = 10 * i + j.
Proof.
  intros Hi Hj. unfold CInt.add, CInt.mul.
  rewrite (wrap_in_range (10 * i)) by (unfold CInt.int_min, CInt.int_max; lia).
  apply wrap_in_range. unfold CInt.int_min, CInt.int_max. lia.
Qed.

(** ** Lists of consecutive integers *)

Lemma of_nat_seq_sorted (k a : nat) :
  StronglySorted Z.lt (map Z.of_nat (List.seq a k)).
Proof.
  revert a. induction k as [|k IH]; intros a; simpl; constructor.
  - apply IH.
  - apply Forall_forall. intros z Hz.
    apply in_map_iff in Hz. destruct Hz as [m [<- Hm]].
    apply in_seq in Hm. lia.
Qed.

Lemma upto_sorted (k : nat) : StronglySorted Z.lt (Spec.upto k).
Proof. apply of_nat_seq_sorted. Qed.

Lemma upto_NoDup (k : nat) : NoDup (Spec.upto k).
Proof.
  unfold Spec.upto. apply Injective_map_NoDup.
  - intros a b. apply Nat2Z.inj.
  - apply seq_NoDup.
Qed.

Lemma upto_In (k : nat) (z : Z) :
  In z (Spec.upto k) <-> 0 <= z < Z.of_nat k.
Proof.
  unfold Spec.upto. rewrite in_map_iff. split.
  - intros [m [<- Hm]]. apply in_seq in Hm. lia.
  - intros H. exists (Z.to_nat z). split; [lia|]. apply in_seq. lia.
Qed.

(** ** printf conversions *)

(** The two cell formats, for any value: the conversion [%d] writes the
    decimal text, [%3d] the same text in a field of width 3. *)
Lemma render_plain_cell (n : Z) :
  render (Printf_call C_str"\033[%dm %3d\033[m" [n; n])
  = String CString.ESC "[" ++ Printf.dec n ++ "m " ++ Printf.rjust 3 (Printf.dec n)
    ++ String CString.ESC "[m".
Proof. reflexivity. Qed.

Lemma render_bold_cell (n : Z) :
  render (Printf_call C_str"\033[1;%dm %3d\033[m" [n; n])
  = String CString.ESC "[1;" ++ Printf.dec n ++ "m " ++ Printf.rjust 3 (Printf.dec n)
    ++ String CString.ESC "[m".
Proof. reflexivity. Qed.

Lemma string_app_assoc (a b c : string) : (a ++ b) ++ c = a ++ b ++ c.
Proof.
  induction a as [|x a IH]; simpl; [reflexivity|]. rewrite IH. reflexivity.
Qed.

(** Below 1000 the library's decimal text is the digit-by-digit one of the
    specification, and the field of width 3 is [Spec.field3]. *)
Lemma dec_decimal (n : Z) :
  0 <= n < 1000 ->
  Printf.dec n = Spec.decimal n /\ Printf.rjust 3 (Printf.dec n) = Spec.field3 n.
Proof.
  intros H.
  assert (A : forallb
                (fun z => String.eqb (Printf.dec z) (Spec.decimal z)
                          && String.eqb (Printf.rjust 3 (Printf.dec z)) (Spec.field3 z))
                (Spec.upto 1000) = true)
    by (vm_compute; reflexivity).
  rewrite forallb_forall in A.
  specialize (A n). rewrite upto_In in A. specialize (A H).
  apply andb_true_iff in A. destruct A as [A1 A2].
  split; apply String.eqb_eq; assumption.
Qed.

(** ** The groups and rows of the run *)

Lemma program_calls_groups :
  preamble program_calls = []
  /\ groups_of program_calls
     = map (fun g => (Printf_call (fst g) [], matrix_calls (snd g))) source_groups.
Proof. vm_compute. split; reflexivity. Qed.

Lemma Forall_groups_of (P : call * list call -> Prop) :
  (forall label fmt, In (label, fmt) source_groups ->
                     P (Printf_call label [], matrix_calls fmt)) ->
  Forall P (groups_of program_calls).
Proof.
  intros H. destruct program_calls_groups as [_ ->].
  apply Forall_forall. intros g Hg.
  apply in_map_iff in Hg. destruct Hg as [[label fmt] [<- Hin]].
  apply H. exact Hin.
Qed.

Lemma matrix_calls_values (fmt : string) :
  emitted_values (matrix_calls fmt) = Spec.upto 109.
Proof. vm_compute. reflexivity. Qed.

Lemma matrix_calls_rows (fmt : string) :
  rows_of (matrix_calls fmt)
  = map (fun i => map (fun n => Printf_call fmt [n; n]) (row_values i)) (Spec.upto 11)
  /\ unterminated (matrix_calls fmt) = [].
Proof. vm_compute. split; reflexivity. Qed.

(** * The claims *)

(** C1: in every finished run of [main] there are nine groups, and for
    each of them the values [n] emitted across all of its rows are exactly
    the integers 0 .. 108, in strictly increasing order, with no gap and no
    repeat. *)
Theorem values_enumerate_0_to_108 (fuel : nat) (v : vars) (r : Z * vars * list call) :
  main fuel v = Some r ->
  List.length (groups_of (log_of r)) = 9%nat
  /\ Forall
       (fun g =>
          emitted_values (group_body g) = Spec.upto 109
          /\ StronglySorted Z.lt (emitted_values (group_body g))
          /\ NoDup (emitted_values (group_body g))
          /\ (forall n, In n (emitted_values (group_body g)) <-> 0 <= n <= 108))
       (groups_of (log_of r)).
Proof.
  intros H. apply main_run_inv in H. subst r. unfold log_of, snd. split.
  - vm_compute. reflexivity.
  - apply Forall_groups_of. intros label fmt _.
    unfold group_body, snd. rewrite matrix_calls_values.
    split; [reflexivity|]. split; [apply upto_sorted|].
    split; [apply upto_NoDup|].
    intros n. rewrite upto_In. lia.
Qed.

Lemma values_enumerate_0_to_108_witness :
  main 12 (Vars 0 0 0) = Some (0, final_vars, program_calls)
  /\ List.length (groups_of program_calls) = 9%nat
  /\ Forall (fun g => emitted_values (group_body g) = Spec.upto 109)
       (groups_of program_calls).
Proof.
  assert (R : main 12 (Vars 0 0 0) = Some (0, final_vars, program_calls))
    by (vm_compute; reflexivity).
  split; [exact R|].
  destruct (values_enumerate_0_to_108 12 (Vars 0 0 0) _ R) as [L F].
  split; [exact L|].
  revert F. apply Forall_impl. intros g G. exact (proj1 G).
Defined.

(** C2: every group has 11 rows; each of the first ten holds exactly 10
    cells, the values [10 * i .. 10 * i + 9] of row [i], and the last holds
    exactly 9 cells, the values 100 .. 108: the test [n > 108] is made for
    each cell, before it is emitted, so the value 109 of the last column is
    not. *)
Theorem rows_ten_cells_last_nine (fuel : nat) (v : vars) (r : Z * vars * list call) :
  main fuel v = Some r ->
  Forall
    (fun g =>
       let rs := rows_of (group_body g) in
       List.length rs = 11%nat
       /\ forallb (forallb is_cell) rs = true
       /\ map (@List.length call) rs = (repeat 10 10 ++ [9])%nat%list
       /\ map emitted_values (firstn 10 rs)
          = map (fun i => map (fun j => 10 * i + j) (Spec.upto 10)) (Spec.upto 10)
       /\ map emitted_values (skipn 10 rs)
          = [[100; 101; 102; 103; 104; 105; 106; 107; 108]]
       /\ ~ In 109 (emitted_values (group_body g)))
    (groups_of (log_of r)).
Proof.
  intros H. apply main_run_inv in H. subst r. unfold log_of, snd.
  apply Forall_groups_of. intros label fmt _.
  unfold group_body, snd. cbv zeta.
  rewrite matrix_calls_values. destruct (matrix_calls_rows fmt) as [-> _].
  conjs; try by_evaluation.
  rewrite upto_In. lia.
Qed.

Lemma rows_ten_cells_last_nine_witness :
  main 12 (Vars 0 0 0) = Some (0, final_vars, program_calls)
  /\ Forall
       (fun g => map (@List.length call) (rows_of (group_body g))
                 = [10; 10; 10; 10; 10; 10; 10; 10; 10; 10; 9]%nat)
       (groups_of program_calls).
Proof.
  assert (R : main 12 (Vars 0 0 0) = Some (0, final_vars, program_calls))
    by (vm_compute; reflexivity).
  split; [exact R|].
  generalize (rows_ten_cells_last_nine 12 (Vars 0 0 0) _ R).
  apply Forall_impl. intros g G. exact (proj1 (proj2 (proj2 G))).
Defined.

(** C6: in every group, each of the 11 rows, the short last one included,
    is a non-empty run of cells followed by exactly one line break: the
    calls of the group are its rows, each with one [printf("\n")] after it,
    nothing is left after the last line break, a line break writes the one
    byte LF, and no cell writes an LF. *)
Theorem one_line_break_per_row (fuel : nat) (v : vars) (r : Z * vars * list call) :
  main fuel v = Some r ->
  render newline_call = String CString.LF EmptyString
  /\ Forall
       (fun g =>
          let rs := rows_of (group_body g) in
          group_body g = flat_map (fun row => row ++ [newline_call])%list rs
          /\ unterminated (group_body g) = []
          /\ List.length rs = 11%nat
          /\ List.length (filter is_newline (group_body g)) = 11%nat
          /\ forallb
               (fun row =>
                  negb (Nat.eqb (List.length row) 0)
                  && forallb
                       (fun c =>
                          is_cell c
                          && Nat.eqb (Bytes.count CString.LF (render c)) 0)
                       row)
               rs = true)
       (groups_of (log_of r)).
Proof.
  intros H. apply main_run_inv in H. subst r. unfold log_of, snd.
  split; [reflexivity|].
  destruct program_calls_groups as [_ ->]. unfold source_groups.
  repeat (apply Forall_cons; [vm_compute; conjs; reflexivity|]).
  apply Forall_nil.
Qed.

Lemma one_line_break_per_row_witness :
  main 12 (Vars 0 0 0) = Some (0, final_vars, program_calls)
  /\ Forall
       (fun g =>
          group_body g
          = flat_map (fun row => row ++ [newline_call])%list (rows_of (group_body g)))
       (groups_of program_calls).
Proof.
  assert (R : main 12 (Vars 0 0 0) = Some (0, final_vars, program_calls))
    by (vm_compute; reflexivity).
  split; [exact R|].
  generalize (proj2 (one_line_break_per_row 12 (Vars 0 0 0) _ R)).
  apply Forall_impl. intros g G. exact (proj1 G).
Defined.

(** C3: the eight groups after Plain have the prefixes 1, 2, 3, 5, 4, 9,
    21, 8 in this order, and the cells each of them writes are, byte for
    byte and for [n] = 0 .. 108 in turn, [ESC [ prefix ; n m], a space, [n]
    right-justified in width 3, [ESC [ m]. *)
Theorem prefixed_cell_bytes (fuel : nat) (v : vars) (r : Z * vars * list call) :
  main fuel v = Some r ->
  Spec.prefixes = [1; 2; 3; 5; 4; 9; 21; 8]
  /\ map (fun g => map render (cells_of (group_body g))) (tl (groups_of (log_of r)))
     = map (fun p => map (Spec.cell (Some p)) (Spec.upto 109)) Spec.prefixes
  /\ (forall p n, In p Spec.prefixes -> 0 <= n <= 108 ->
      Spec.cell (Some p) n
      = String CString.ESC "[" ++ Printf.dec p ++ ";" ++ Printf.dec n ++ "m "
        ++ Printf.rjust 3 (Printf.dec n) ++ String CString.ESC "[m").
Proof.
  intros H. apply main_run_inv in H. subst r. unfold log_of, snd.
  split; [reflexivity|]. split; [vm_compute; reflexivity|].
  intros p n Hp Hn. unfold Spec.cell.
  assert (Hp' : 0 <= p < 1000)
    by (unfold Spec.prefixes in Hp; simpl in Hp; lia).
  destruct (dec_decimal p Hp') as [-> _].
  destruct (dec_decimal n) as [-> ->]; [lia|].
  simpl. rewrite string_app_assoc. reflexivity.
Qed.

Lemma prefixed_cell_bytes_witness :
  main 12 (Vars 0 0 0) = Some (0, final_vars, program_calls)
  /\ map (fun g => map render (cells_of (group_body g))) (tl (groups_of program_calls))
     = map (fun p => map (Spec.cell (Some p)) (Spec.upto 109)) Spec.prefixes.
Proof.
  assert (R : main 12 (Vars 0 0 0) = Some (0, final_vars, program_calls))
    by (vm_compute; reflexivity).
  split; [exact R|].
  exact (proj1 (proj2 (prefixed_cell_bytes 12 (Vars 0 0 0) _ R))).
Defined.

(** C4: the cells of the Plain group, the first group, are byte for byte
    and for [n] = 0 .. 108 in turn, [ESC [ n m], a space, [n]
    right-justified in width 3, [ESC [ m], with no prefix and no semicolon.
    Its first cell is [ESC [ 0 m], three spaces, [0], [ESC [ m].  The last
    cell of every group writes 108 after the single space, with no
    padding. *)
Theorem plain_cell_bytes (fuel : nat) (v : vars) (r : Z * vars * list call) :
  main fuel v = Some r ->
  option_map (fun g => map render (cells_of (group_body g)))
    (hd_error (groups_of (log_of r)))
  = Some (map (Spec.cell None) (Spec.upto 109))
  /\ option_map (fun g => hd_error (map render (cells_of (group_body g))))
       (hd_error (groups_of (log_of r)))
     = Some (Some (String CString.ESC "[0m   0" ++ String CString.ESC "[m"))
  /\ map (fun g => last (map render (cells_of (group_body g))) "")
       (groups_of (log_of r))
     = map (fun p => String CString.ESC "[" ++ p ++ "108m 108" ++ String CString.ESC "[m")
         [""; "1;"; "2;"; "3;"; "5;"; "4;"; "9;"; "21;"; "8;"]
  /\ (forall n, 0 <= n <= 108 ->
      Spec.cell None n
      = String CString.ESC "[" ++ Printf.dec n ++ "m "
        ++ Printf.rjust 3 (Printf.dec n) ++ String CString.ESC "[m").
Proof.
  intros H. apply main_run_inv in H. subst r. unfold log_of, snd.
  split; [vm_compute; reflexivity|].
  split; [vm_compute; reflexivity|].
  split; [vm_compute; reflexivity|].
  intros n Hn. unfold Spec.cell.
  destruct (dec_decimal n) as [-> ->]; [lia|]. reflexivity.
Qed.

Lemma plain_cell_bytes_witness :
  main 12 (Vars 0 0 0) = Some (0, final_vars, program_calls)
  /\ option_map (fun g => map render (cells_of (group_body g)))
       (hd_error (groups_of program_calls))
     = Some (map (Spec.cell None) (Spec.upto 109)).
Proof.
  assert (R : main 12 (Vars 0 0 0) = Some (0, final_vars, program_calls))
    by (vm_compute; reflexivity).
  split; [exact R|].
  exact (proj1 (plain_cell_bytes 12 (Vars 0 0 0) _ R)).
Defined.

(** C5: a finished run makes exactly nine label calls.  Nothing is written
    before the first; each is followed at once by the rows of its group;
    their texts, each followed by a line feed, are in order [Plain:],
    [Bold:], [Bold:] (the group with prefix 2), [Italic:], [Blink:],
    [Underline:], [Crossed out :], [Double underlined :],
    [Conceal/hide :].  In the bytes written these are the lines 0, 12, 24,
    .. 96, and the only lines that do not start with ESC. *)
Theorem label_lines_in_order (fuel : nat) (v : vars) (r : Z * vars * list call) :
  main fuel v = Some r ->
  let log := log_of r in
  let text := Bytes.lines (stdout_bytes log) in
  List.length (filter is_label log) = 9%nat
  /\ preamble log = []
  /\ log = flat_map (fun g => group_label g :: group_body g) (groups_of log)
  /\ map group_label (groups_of log)
     = map (fun t => Printf_call (Spec.line t) []) Spec.labels
  /\ map (fun g => render (group_label g)) (groups_of log) = map Spec.line Spec.labels
  /\ map (fun g => option_map is_cell (hd_error (group_body g))) (groups_of log)
     = repeat (Some true) 9
  /\ Spec.labels
     = ["Plain:"; "Bold:"; "Bold:"; "Italic:"; "Blink:"; "Underline:";
        "Crossed out :"; "Double underlined :"; "Conceal/hide :"]
  /\ filter (fun l => negb (Bytes.starts_with_ESC l)) text = Spec.labels
  /\ map (fun k => nth_error text (12 * k)) (List.seq 0 9) = map Some Spec.labels.
Proof.
  intros H. apply main_run_inv in H. subst r. unfold log_of, snd. cbv zeta.
  conjs; by_evaluation.
Qed.

Lemma label_lines_in_order_witness :
  main 12 (Vars 0 0 0) = Some (0, final_vars, program_calls)
  /\ map (fun g => render (group_label g)) (groups_of program_calls)
     = map Spec.line Spec.labels.
Proof.
  assert (R : main 12 (Vars 0 0 0) = Some (0, final_vars, program_calls))
    by (vm_compute; reflexivity).
  split; [exact R|].
  exact (proj1 (proj2 (proj2 (proj2 (proj2 (label_lines_in_order 12 (Vars 0 0 0) _ R)))))).
Defined.

(** C10: the bytes written hold exactly 108 line feeds and so 108 lines, 9
    label lines and 9 * 11 = 99 row lines; the last byte is a line feed and
    nothing follows the last line. *)
Theorem output_has_108_lines (fuel : nat) (v : vars) (r : Z * vars * list call) :
  main fuel v = Some r ->
  let out := stdout_bytes (log_of r) in
  Bytes.count CString.LF out = 108%nat
  /\ List.length (Bytes.lines out) = 108%nat
  /\ Bytes.after_last_line out = ""
  /\ Bytes.last_byte out = Some CString.LF
  /\ List.length (filter (fun l => negb (Bytes.starts_with_ESC l)) (Bytes.lines out))
     = 9%nat
  /\ List.length (filter Bytes.starts_with_ESC (Bytes.lines out)) = (9 * 11)%nat.
Proof.
  intros H. apply main_run_inv in H. subst r. unfold log_of, snd. cbv zeta.
  conjs; by_evaluation.
Qed.

Lemma output_has_108_lines_witness :
  main 12 (Vars 0 0 0) = Some (0, final_vars, program_calls)
  /\ Bytes.count CString.LF (stdout_bytes program_calls) = 108%nat.
Proof.
  assert (R : main 12 (Vars 0 0 0) = Some (0, final_vars, program_calls))
    by (vm_compute; reflexivity).
  split; [exact R|].
  exact (proj1 (output_has_108_lines 12 (Vars 0 0 0) _ R)).
Defined.

(** C7: the output does not depend on the run: two finished runs, whatever
    their fuel and whatever the indeterminate initial values of the locals,
    make the same calls, write the same bytes and return the same status. *)
Theorem output_deterministic (f1 f2 : nat) (v1 v2 : vars)
    (r1 r2 : Z * vars * list call) :
  main f1 v1 = Some r1 -> main f2 v2 = Some r2 ->
  log_of r1 = log_of r2
  /\ stdout_bytes (log_of r1) = stdout_bytes (log_of r2)
  /\ exit_status r1 = exit_status r2.
Proof.
  intros H1 H2. apply main_run_inv in H1. apply main_run_inv in H2.
  subst r1 r2. conjs; reflexivity.
Qed.

Lemma output_deterministic_witness :
  main 12 (Vars 0 0 0) = Some (0, final_vars, program_calls)
  /\ main 20 (Vars 7 (-3) 2147483647) = Some (0, final_vars, program_calls)
  /\ stdout_bytes (log_of (0, final_vars, program_calls))
     = stdout_bytes (log_of (0, final_vars, program_calls)).
Proof.
  assert (R1 : main 12 (Vars 0 0 0) = Some (0, final_vars, program_calls))
    by (vm_compute; reflexivity).
  assert (R2 : main 20 (Vars 7 (-3) 2147483647) = Some (0, final_vars, program_calls))
    by (vm_compute; reflexivity).
  split; [exact R1|]. split; [exact R2|].
  exact (proj1 (proj2 (output_deterministic 12 20 _ _ _ _ R1 R2))).
Defined.

(** C8: [main] terminates: with 12 units of fuel or more, and from any
    initial values of the locals, the run finishes; its only effect is the
    log of [printf] calls, 1089 of them. *)
Theorem main_terminates (fuel : nat) (v : vars) :
  (12 <= fuel)%nat ->
  exists r, main fuel v = Some r /\ List.length (log_of r) = 1089%nat.
Proof.
  intros Hle. exists (0, final_vars, program_calls).
  split; [apply main_run; exact Hle | vm_compute; reflexivity].
Qed.

Lemma main_terminates_witness :
  (12 <= 12)%nat
  /\ exists r, main 12 (Vars 0 0 0) = Some r /\ List.length (log_of r) = 1089%nat.
Proof.
  split; [apply Nat.le_refl|].
  apply (main_terminates 12 (Vars 0 0 0)). apply Nat.le_refl.
Defined.

(** C9: [main] takes no argument; every run with enough fuel finishes, and
    every finished run returns 0, whatever the initial values of the
    locals: there is no path to another status. *)
Theorem main_exits_zero (fuel : nat) (v : vars) :
  (12 <= fuel)%nat ->
  (exists r, main fuel v = Some r /\ exit_status r = 0)
  /\ (forall fuel' v' r', main fuel' v' = Some r' -> exit_status r' = 0).
Proof.
  intros Hle. split.
  - exists (0, final_vars, program_calls). split; [apply main_run; exact Hle | reflexivity].
  - intros fuel' v' r' H. apply main_run_inv in H. subst r'. reflexivity.
Qed.

Lemma main_exits_zero_witness :
  (12 <= 12)%nat
  /\ exists r, main 12 (Vars 0 0 0) = Some r /\ exit_status r = 0.
Proof.
  split; [apply Nat.le_refl|].
  exact (proj1 (main_exits_zero 12 (Vars 0 0 0) (Nat.le_refl 12))).
Defined.
